(** * Turn scheduling of the multi-agent programming system

    A shallow embedding of
    - [scripts/xml_parsing_tools.py]: the project-plan parser, and
    - [scripts/agent_chat_tools.py]: the construction of the agent order
      and the speaker-selection closure,
    - [scripts/agent_tools.py]: the path, read and test helpers,
    - the evaluation scripts [parse_xml_files_to_the_task_format.py] and
      [test_output_extraction.py]: the strict plan parser, the file
      extensions and the file names of the extracted blocks,
    followed by the properties of the plan parser, the schedule builder
    and the turn selector.

    Python strings are modelled as [string]. [str.lower] follows the
    Unicode tables, which are not modelled: it is an abstract function
    [Py.lower], and every definition that lower-cases takes it as it is.
    Its behaviour on ASCII text, [Py.lower_text], is the instance used
    where a statement computes with the names of the registered agents. *)

From Stdlib Require Import Ascii String.
From stdpp Require Import base option list strings gmap pretty.

Local Open Scope string_scope.
Local Open Scope list_scope.

(** ** Python strings *)

Module Py.

(** [c.lower()] for one ASCII character: A..Z are shifted to a..z. *)
Definition lower_ascii (c : ascii) : ascii :=
  let n := nat_of_ascii c in
  if (65 <=? n)%nat && (n <=? 90)%nat then ascii_of_nat (n + 32) else c.

(** [s.lower()] for a string of ASCII characters. *)
Fixpoint lower_text (s : string) : string :=
  match s with
  | EmptyString => EmptyString
  | String c s' => String (lower_ascii c) (lower_text s')
  end.

(** [s.lower()] for any string: the lower-casing of the Python at hand. *)
Class Lower : Set := lower : string → string.

(** Truthiness of an optional string: [None] and [''] are false. *)
Definition truthy (t : option string) : bool :=
  match t with
  | Some (String _ _) => true
  | _ => false
  end.

(** The exceptions the modelled code can raise. *)
Inductive exn : Set :=
| IndexError
| ZeroDivisionError.

Inductive result (A : Type) : Type :=
| Ok (a : A)
| Raise (e : exn).
Arguments Ok {A} a.
Arguments Raise {A} e.

(** [l[i]] for a non-negative index. *)
Definition getitem {A} (l : list A) (i : nat) : result A :=
  match l !! i with
  | Some a => Ok a
  | None => Raise IndexError
  end.

(** [a % b] on non-negative integers. *)
Definition pymod (a b : nat) : result nat :=
  match b with
  | O => Raise ZeroDivisionError
  | S _ => Ok (a mod b)
  end.

(** Sequencing: an exception raised by [r] propagates. *)
#[global] Instance result_bind : MBind result := λ A B k r,
  match r with
  | Ok a => k a
  | Raise e => Raise e
  end.

End Py.

(** ** data/agents.py *)

Module Agents.

(** An autogen agent, as far as the scheduling code looks at it. *)
Record Agent : Set := mkAgent { name : string }.

#[global] Instance Agent_eq_dec : EqDecision Agent.
Proof. solve_decision. Defined.

Definition user_proxy : Agent := mkAgent "User_Proxy".
Definition project_manager : Agent := mkAgent "Project_Manager".
Definition coder : Agent := mkAgent "Coder".
Definition tester : Agent := mkAgent "Tester".
Definition debugger : Agent := mkAgent "Debugger".

End Agents.

(** ** scripts/xml_parsing_tools.py *)

Module XmlParsing.

(** An [xml.etree.ElementTree.Element]: tag, text ([None] for an
    element without character data) and child elements. *)
#[warnings="-register-all"]
Inductive Element : Set :=
| Elem (tag : string) (text : option string) (children : list Element).

Definition tag (e : Element) : string := let 'Elem t _ _ := e in t.
Definition text (e : Element) : option string := let 'Elem _ x _ := e in x.
Definition children (e : Element) : list Element := let 'Elem _ _ c := e in c.

(** [e.findall(t)]: the direct children with tag [t], in document order. *)
Definition findall (t : string) (e : Element) : list Element :=
  filter (λ c, tag c = t) (children e).

(** [e.find(t)]: the first direct child with tag [t]. *)
Definition find (t : string) (e : Element) : option Element :=
  head (findall t e).

(** The dictionary [{'description': ..., 'agent': ...}]. *)
Record Subtask : Set := mkSubtask { description : string; agent : string }.

(** The dictionary [{'name', 'description', 'delegatedTo', 'tasks'}]. *)
Record Task : Set := mkTask {
  task_name : string;
  task_description : string;
  delegatedTo : list string;
  tasks : list Subtask
}.

(** [find(t)] followed by the test
    [x is None or x.text is None]: the text when both are present. *)
Definition required_text (t : string) (e : Element) : option string :=
  find t e ≫= text.

Definition parse_task (task_element : Element) : option Subtask :=
  match required_text "name" task_element,
        required_text "delegatedTo" task_element with
  | Some name, Some delegated_to => Some (mkSubtask name delegated_to)
  | _, _ => None
  end.

(** The loop over [delegated_to.findall('agent')] with [if agent.text]. *)
Definition parse_delegated (root_element : Element) : list string :=
  match find "delegatedTo" root_element with
  | Some delegated_to =>
      omap (λ a, if Py.truthy (text a) then text a else None)
           (findall "agent" delegated_to)
  | None => []
  end.

(** One iteration of the loop over [tasks_element.findall('task')]:
    [parsed_task = parse_task(task_elem)], appended [if parsed_task]. *)
Definition append_parsed (acc : list Subtask) (task_elem : Element)
  : list Subtask :=
  match parse_task task_elem with
  | Some parsed_task => acc ++ [parsed_task]
  | None => acc
  end.

Definition parse_subtasks (root_element : Element) : list Subtask :=
  match find "tasks" root_element with
  | Some tasks_element => foldl append_parsed [] (findall "task" tasks_element)
  | None => []
  end.

Definition parse_root_as_task (root_element : Element) : option Task :=
  match required_text "name" root_element,
        required_text "description" root_element with
  | Some name, Some description =>
      Some (mkTask name description
                   (parse_delegated root_element)
                   (parse_subtasks root_element))
  | _, _ => None
  end.

(** What [ET.parse(project_plan_path)] finds on disk. *)
Inductive PlanFile : Set :=
| Missing
| NotXml
| Document (root : Element).

Definition parse_project_plan (f : PlanFile) : list Task :=
  match f with
  | Missing | NotXml => []
  | Document root =>
      if decide (tag root = "project_plan") then
        match parse_root_as_task root with
        | Some task => [task]
        | None => []
        end
      else []
  end.

End XmlParsing.

(** ** scripts/agent_chat_tools.py *)

Module AgentChat.
Import Agents XmlParsing.

(** Configuration for debugging loops. *)
Definition num_debug_loops : nat := 3.

(** The dictionary [agent_instances] built inside the loop. *)
Definition agent_instances : gmap string Agent :=
  {[ "coder" := coder;
     "project_manager" := project_manager;
     "tester" := tester;
     "debugger" := debugger ]}.

(** The three local variables of [execute_agent_tasks]. *)
Record Collected : Type := mkCollected {
  seen_agents : gset string;
  ordered_agents : list Agent;
  agent_order : list string
}.

Definition start : Collected := mkCollected ∅ [] [].

(** The body of [for subtask in tasks]. *)
Definition visit `{!Py.Lower} (st : Collected) (subtask : Subtask)
  : Collected :=
  let agent_name := Py.lower (agent subtask) in
  let order := agent_order st ++ [agent_name] in
  if decide (agent_name ∈ seen_agents st) then
    mkCollected (seen_agents st) (ordered_agents st) order
  else
    let seen := {[agent_name]} ∪ seen_agents st in
    match agent_instances !! agent_name with
    | Some instance => mkCollected seen (ordered_agents st ++ [instance]) order
    | None => mkCollected seen (ordered_agents st) order
    end.

(** [if 'debugger' not in seen_agents: ...] *)
Definition add_debugger (st : Collected) : Collected :=
  if decide ("debugger" ∈ seen_agents st) then st
  else mkCollected ({["debugger"]} ∪ seen_agents st)
                   (ordered_agents st ++ [debugger])
                   (agent_order st ++ ["debugger"]).

(** [['tester', 'debugger', 'coder'] * loops] *)
Definition debug_loop (loops : nat) : list string :=
  mjoin (replicate loops ["tester"; "debugger"; "coder"]).

(** The part of [execute_agent_tasks] that computes the arguments
    [agents] and [agent_order] of [setup_group_chat], for a given value
    of the module constant. *)
Definition collect_agents `{!Py.Lower} (loops : nat) (task : Task)
  : Collected :=
  let st := add_debugger (foldl visit start (tasks task)) in
  mkCollected (seen_agents st) (ordered_agents st)
              (agent_order st ++ debug_loop loops).

(** What the collecting part of [execute_agent_tasks] can read and write
    when it is called: the module variable [num_debug_loops] and the
    values the three local names hold. *)
Record Env : Type := mkEnv {
  env_num_debug_loops : nat;
  env_locals : Collected
}.

(** One call, as a transition of the environment: the three locals are
    bound anew ([set()], [[]], [[]]), whatever they held; the module
    variable is read for the debug loop and is not assigned. *)
Definition run_collect `{!Py.Lower} (task : Task) (env : Env) : Env :=
  mkEnv (env_num_debug_loops env)
        (collect_agents (env_num_debug_loops env) task).

Section selector.
(** The chat messages; the selector only looks at how many there are. *)
Context {Message : Type} `{!Py.Lower}.

(** [next((agent for agent in agents if agent.name.lower() == agent_name),
          agents[0])]: the default [agents[0]] is evaluated first. *)
Definition next_matching (agents : list Agent) (agent_name : string)
  : Py.result Agent :=
  dflt ← Py.getitem agents 0;
  Py.Ok (default dflt
           (list_find (λ a, Py.lower (name a) = agent_name) agents
              ≫= λ p, Some p.2)).

(** The closure defined in [setup_multi_agent_chat], with the captured
    [agents] and [agent_order] as arguments. [agent_order = None]
    stands for the default argument. *)
Definition custom_speaker_selection_func
    (agents : list Agent) (agent_order : option (list string))
    (messages : list Message) : Py.result Agent :=
  match messages with
  | [] => Py.getitem agents 0
  | _ :: _ =>
      match agent_order with
      | Some ((_ :: _) as order) =>
          let message_index := length messages / 3 in
          agent_index ← Py.pymod message_index (length order);
          scheduled ← Py.getitem order agent_index;
          next_matching agents (Py.lower scheduled)
      | Some [] | None =>
          i ← Py.pymod (length messages / 3) (length agents);
          Py.getitem agents i
      end
  end.

(** How the next speaker of the group chat is chosen. *)
Inductive SpeakerSelection : Type :=
| auto
| custom (f : list Message → Py.result Agent).

Record GroupChat : Type := mkGroupChat {
  chat_agents : list Agent;
  max_round : nat;
  speaker_selection_method : SpeakerSelection
}.

(** [setup_group_chat], up to starting the chat: the returned agent
    list and the configured group chat. *)
Definition setup_group_chat
    (agents : list Agent) (max_rounds : nat)
    (agent_order : option (list string)) : list Agent * GroupChat :=
  match agents with
  | [agent] => ([agent], mkGroupChat [user_proxy; agent] max_rounds auto)
  | _ => (agents,
          mkGroupChat (user_proxy :: agents) max_rounds
            (custom (custom_speaker_selection_func agents agent_order)))
  end.

(** [execute_agent_tasks], up to starting the chat. *)
Definition execute_agent_tasks_with (loops : nat) (task : Task)
  : list Agent * GroupChat :=
  let st := collect_agents loops task in
  setup_group_chat (ordered_agents st) 99 (Some (agent_order st)).

Definition execute_agent_tasks : Task → list Agent * GroupChat :=
  execute_agent_tasks_with num_debug_loops.

End selector.

End AgentChat.

(** ** Specification-side vocabulary and example inputs *)

Module Spec.
Import Agents XmlParsing AgentChat.

(** The roles of the specification, under the names the code gives them. *)
Definition planner : string := "project_manager".
Definition fixer : string := "debugger".
Definition verifier : string := "tester".
Definition implementer : string := "coder".

(** The [task] entries of a plan document, in document order. *)
Definition subtask_entries (root_element : Element) : list Element :=
  match find "tasks" root_element with
  | Some tasks_element => findall "task" tasks_element
  | None => []
  end.

(** The lower-cased roles of the subtasks, in plan order. *)
Definition scheduled_roles `{!Py.Lower} (task : Task) : list string :=
  (Py.lower ∘ agent) <$> tasks task.

(** The distinct elements of [l], each at the place of its first
    occurrence. *)
Fixpoint first_occurrences (l : list string) : list string :=
  match l with
  | [] => []
  | x :: l' => x :: filter (λ y, y ≠ x) (first_occurrences l')
  end.

(** The turn index the selector computes after [n] messages. *)
Definition turn_index (n len : nat) : nat := (n / 3) mod len.

Definition leaf (t v : string) : Element := Elem t (Some v) [].

(** A plan with one complete subtask and one without [delegatedTo]. *)
Definition plan_missing_role : Element :=
  Elem "project_plan" None
    [ leaf "name" "calculator";
      leaf "description" "a command line calculator";
      Elem "tasks" None
        [ Elem "task" None [leaf "name" "implement"; leaf "delegatedTo" "coder"];
          Elem "task" None [leaf "name" "test"] ] ].

(** A plan whose first role, "planner", has no entry in the registry. *)
Definition scenario : Task :=
  mkTask "scenario" "design, then implement" []
    [mkSubtask "design" "planner"; mkSubtask "implement" "coder"].

(** The plan of the concrete scenario, with the planner under the name
    the code gives it. *)
Definition scenario_plan : Task :=
  mkTask "scenario" "design, then implement" []
    [mkSubtask "design" planner; mkSubtask "implement" "coder"].

End Spec.

Import Agents XmlParsing AgentChat Spec.

(** ** evals/.../parse_xml_files_to_the_task_format.py *)

Module TaskFormat.
Import XmlParsing.

(** What [Path(file_path)] and [ET.parse(file_path)] find: no such path,
    a path that is not a regular file, a file that is not well-formed XML
    (with the text of the parse error), or a document. *)
Inductive XmlFile : Set :=
| NoSuchPath
| NotAFile
| Malformed (error : string)
| Parsed (root : Element).

(** The body of the loop over [tasks_element.findall('task')]: an error
    message, or the subtask dictionary. [file_name] is [file.name]. *)
Definition parse_entry (file_name : string) (task : Element)
  : string + Subtask :=
  match find "name" task, find "delegatedTo" task with
  | Some task_name, Some task_agent =>
      match text task_name, text task_agent with
      | Some d, Some a => inr (mkSubtask d a)
      | _, _ => inl ("Empty name or delegatedTo field in task in " +:+ file_name)
      end
  | _, _ =>
      inl ("Missing required fields in task (name or delegatedTo) in "
             +:+ file_name)
  end.

(** The loop itself: the first bad entry returns from the function. *)
Fixpoint parse_entries (file_name : string) (acc : list Subtask)
    (entries : list Element) : string + list Subtask :=
  match entries with
  | [] => inr acc
  | task :: rest =>
      match parse_entry file_name task with
      | inl error_msg => inl error_msg
      | inr subtask => parse_entries file_name (acc ++ [subtask]) rest
      end
  end.

Definition parse_xml_file (file_path file_name : string) (f : XmlFile)
  : list Task * string :=
  match f with
  | NoSuchPath => ([], "File not found: " +:+ file_path)
  | NotAFile => ([], "Not a file: " +:+ file_path)
  | Malformed e => ([], "XML parsing error in " +:+ file_name +:+ ": " +:+ e)
  | Parsed root =>
      if decide (tag root = "project_plan") then
        match find "name" root, find "description" root with
        | Some name, Some description =>
            let entries :=
              match find "tasks" root with
              | Some tasks_element => findall "task" tasks_element
              | None => []
              end in
            match parse_entries file_name [] entries with
            | inl error_msg => ([], error_msg)
            | inr subtasks =>
                ([mkTask (default "" (text name))
                         (default "" (text description))
                         (parse_delegated root) subtasks], "")
            end
        | _, _ =>
            ([], "Missing required fields (name or description) in "
                   +:+ file_name)
        end
      else ([], "Root element must be 'project_plan'")
  end.

End TaskFormat.

(** ** evals/.../test_output_extraction.py *)

Module OutputExtraction.

(** The exceptions of this script that the modelled functions raise. *)
Inductive exn : Set :=
| ValueError
| ZeroDivisionError
| IndexError.

Definition extension_map : gmap string string :=
  list_to_map
    [ ("python", ".py"); ("javascript", ".js"); ("typescript", ".ts");
      ("java", ".java"); ("c", ".c"); ("cpp", ".cpp"); ("csharp", ".cs");
      ("go", ".go"); ("ruby", ".rb"); ("php", ".php"); ("swift", ".swift");
      ("kotlin", ".kt"); ("rust", ".rs"); ("scala", ".scala");
      ("html", ".html"); ("css", ".css"); ("shell", ".sh"); ("bash", ".sh");
      ("sql", ".sql"); ("r", ".r"); ("xml", ".xml") ].

Definition get_file_extension_for_language `{!Py.Lower} (language : string)
  : exn + string :=
  match language with
  | EmptyString => inl ValueError
  | _ =>
      inr (default ("." +:+ Py.lower language)
                   (extension_map !! Py.lower language))
  end.

(** [l[k]] for an integer index: negative indices count from the end. *)
Definition getitem {A} (l : list A) (k : Z) : exn + A :=
  let n := Z.of_nat (length l) in
  let pos := if decide (k < 0)%Z then (n + k)%Z else k in
  if decide (0 ≤ pos < n)%Z then
    match l !! Z.to_nat pos with
    | Some a => inr a
    | None => inl IndexError
    end
  else inl IndexError.

(** The file name [save_output_blocks] computes for the block at index
    [i]; an exception is caught by the loop body, which then skips the
    block. [//] and [%] are Python's floor division and modulo. *)
Definition block_filename (categories : list string)
    (tests_per_category : Z) (file_extension : string) (i : nat)
  : exn + string :=
  if decide (tests_per_category = 0)%Z then inl ZeroDivisionError
  else
    let cat_index := (Z.of_nat i `div` tests_per_category)%Z in
    let test_number := (Z.of_nat i `mod` tests_per_category + 1)%Z in
    if decide (cat_index < Z.of_nat (length categories))%Z then
      match getitem categories cat_index with
      | inr category =>
          inr (category +:+ "_" +:+ pretty test_number +:+ file_extension)
      | inl e => inl e
      end
    else inr ("test_" +:+ pretty (Z.of_nat i + 1)%Z +:+ file_extension).

End OutputExtraction.

(** ** scripts/agent_tools.py *)

Module AgentTools.

(** The line feed of the f-strings. *)
Definition nl : string := String "010"%char "".

(** data/project_config.py *)
Definition PROJECT_NAME : string := "calculator".
Definition SRC_DIR : string := "src".

Fixpoint endswith_slash (path : string) : bool :=
  match path with
  | EmptyString => false
  | String c EmptyString => bool_decide (c = "/"%char)
  | String _ rest => endswith_slash rest
  end.

(** One step of [os.path.join] on a POSIX system: an absolute component
    replaces what came before it. *)
Definition join (path b : string) : string :=
  if String.prefix "/" b then b
  else if bool_decide (path = "") || endswith_slash path then path +:+ b
  else path +:+ "/" +:+ b.

(** [os.path.join(SRC_DIR, PROJECT_NAME, file_name)] *)
Definition full_path (file_name : string) : string :=
  join (join SRC_DIR PROJECT_NAME) file_name.

(** How a call of [read_file] ends: with the content, or with one of the
    exceptions that [read_file_content] tells apart. *)
Inductive ReadOutcome : Set :=
| Content (content : string)
| FileNotFoundError
| PermissionError
| OtherError (message : string).

Section tools.
(** [read_file] on the file system at hand, and the body of
    [execute_python_code]. *)
Variable read_file : string → ReadOutcome.
Variable execute_python_code : string → string.

Definition read_file_content (file_name : string) : string :=
  let full_path := full_path file_name in
  match read_file full_path with
  | Content content => content
  | FileNotFoundError => "Error: File '" +:+ full_path +:+ "' not found."
  | PermissionError =>
      "Error: Permission denied when trying to read '" +:+ full_path +:+ "'."
  | OtherError e =>
      "Error: An unexpected error occurred while reading '" +:+ full_path
        +:+ "': " +:+ e
  end.

Definition test_file (file_name : string) : string :=
  let file_content := read_file_content file_name in
  if String.prefix "Error:" file_content then
    "Error reading file:" +:+ nl +:+ file_content
  else
    let execution_result := execute_python_code file_content in
    "File content:" +:+ nl +:+ file_content +:+ nl +:+ nl
      +:+ "Execution result:" +:+ nl +:+ execution_result.

End tools.

End AgentTools.

(** ** Example inputs *)

Module Examples.
Import Agents XmlParsing.

(** A complete plan: two delegated agents and an [agent] element without
    text, two complete subtasks. *)
Definition plan_complete : Element :=
  Elem "project_plan" None
    [ Elem "name" (Some "calculator") [];
      Elem "description" (Some "a command line calculator") [];
      Elem "delegatedTo" None
        [ Elem "agent" (Some "coder") []; Elem "agent" None [];
          Elem "agent" (Some "tester") [] ];
      Elem "tasks" None
        [ Elem "task" None
            [Elem "name" (Some "implement") []; Elem "delegatedTo" (Some "Coder") []];
          Elem "task" None
            [Elem "name" (Some "test") []; Elem "delegatedTo" (Some "tester") []] ] ].

Definition task_complete : Task :=
  mkTask "calculator" "a command line calculator" ["coder"; "tester"]
    [mkSubtask "implement" "Coder"; mkSubtask "test" "tester"].

(** A plan for the debugger and an unregistered role only. *)
Definition task_review : Task :=
  mkTask "review" "look for defects" []
    [mkSubtask "read" "reviewer"; mkSubtask "fix" "Debugger"].

(** A file system with one file that begins with the word of the error
    messages. *)
Definition one_file (path : string) : AgentTools.ReadOutcome :=
  if decide (path = "src/calculator/notes.py")
  then AgentTools.Content "Error: this is the first line of a program"
  else AgentTools.FileNotFoundError.

End Examples.

(** ** The lower-casing of ASCII text *)

(** On strings of ASCII characters [str.lower] maps A..Z to a..z and
    leaves every other character; the names of the agents and of the
    registry are such strings. *)
#[global] Instance ascii_lower : Py.Lower := Py.lower_text.

(** * Properties *)

(** ** Lower-casing *)

Lemma lower_ascii_idemp c : Py.lower_ascii (Py.lower_ascii c) = Py.lower_ascii c.
Proof. by destruct c as [[] [] [] [] [] [] [] []]; vm_compute. Qed.

Lemma lower_text_idemp s : Py.lower_text (Py.lower_text s) = Py.lower_text s.
Proof.
  induction s as [|c s IH]; simpl; [done|].
  by rewrite lower_ascii_idemp, IH.
Qed.

Lemma lower_idemp s : Py.lower (Py.lower s) = Py.lower s.
Proof. apply lower_text_idemp. Qed.

(** ** The plan parser *)

Section parser.

(** The subtask loop keeps exactly the entries [parse_task] accepts. *)
Lemma foldl_append_parsed entries acc :
  foldl append_parsed acc entries = acc ++ omap parse_task entries.
Proof.
  revert acc. induction entries as [|e entries IH]; intros acc; simpl.
  - by rewrite app_nil_r.
  - rewrite IH. unfold append_parsed.
    destruct (parse_task e); [|done].
    by rewrite <- app_assoc.
Qed.

Lemma parse_subtasks_omap root_element :
  parse_subtasks root_element = omap parse_task (subtask_entries root_element).
Proof.
  unfold parse_subtasks, subtask_entries.
  destruct (find "tasks" root_element); [|done].
  apply foldl_append_parsed.
Qed.

End parser.

(** C1, as the specification states it, fails: in [plan_missing_role] the
    root has a name and a description, the first subtask entry is complete
    and the second has no [delegatedTo] child, yet the parser returns a
    task, with the complete subtask kept. *)
Lemma C1_strict_fail_refuted :
  is_Some (required_text "name" plan_missing_role) ∧
  is_Some (required_text "description" plan_missing_role) ∧
  (∃ e, e ∈ subtask_entries plan_missing_role ∧ is_Some (parse_task e)) ∧
  (∃ e, e ∈ subtask_entries plan_missing_role ∧
        required_text "delegatedTo" e = None) ∧
  parse_root_as_task plan_missing_role =
    Some (mkTask "calculator" "a command line calculator" []
                 [mkSubtask "implement" "coder"]) ∧
  parse_root_as_task plan_missing_role ≠ None.
Proof.
  repeat split; try (vm_compute; eauto; done).
  - eexists. split; [apply list_elem_of_here|]. vm_compute. eauto.
  - eexists. split; [apply list_elem_of_further, list_elem_of_here|]. done.
Qed.

(** C1, amended: when the root has a name and a description with text,
    the parser returns a task whose subtasks are the entries with both a
    [name] and a [delegatedTo] text, in document order; an entry lacking
    either is skipped and the others are kept. *)
Theorem C1_malformed_subtasks_skipped root_element name description :
  required_text "name" root_element = Some name →
  required_text "description" root_element = Some description →
  ∃ task,
    parse_root_as_task root_element = Some task ∧
    task_name task = name ∧
    task_description task = description ∧
    tasks task = omap parse_task (subtask_entries root_element) ∧
    (∀ s, s ∈ tasks task ↔
          ∃ e, e ∈ subtask_entries root_element ∧
               required_text "name" e = Some (XmlParsing.description s) ∧
               required_text "delegatedTo" e = Some (agent s)).
Proof.
  intros Hn Hd. unfold parse_root_as_task. rewrite Hn, Hd.
  eexists. split; [done|]. simpl. rewrite parse_subtasks_omap.
  repeat split; try done.
  - intros (e & He & Hp)%list_elem_of_omap. exists e. split; [done|].
    unfold parse_task in Hp.
    destruct (required_text "name" e), (required_text "delegatedTo" e);
      naive_solver.
  - intros (e & He & H1 & H2). apply list_elem_of_omap. exists e.
    split; [done|]. unfold parse_task. rewrite H1, H2. by destruct s.
Qed.

Lemma C1_malformed_subtasks_skipped_witness :
  ∃ task,
    parse_root_as_task plan_missing_role = Some task ∧
    tasks task = [mkSubtask "implement" "coder"].
Proof.
  destruct (C1_malformed_subtasks_skipped plan_missing_role
              "calculator" "a command line calculator")
    as (task & Hp & _ & _ & Ht & _); [reflexivity|reflexivity|].
  exists task. split; [exact Hp|]. rewrite Ht. reflexivity.
Defined.

(** ** The agent registry *)

Section registry.

(** Every registered agent is filed under its lower-cased name. *)
Lemma agent_instances_Some k a :
  agent_instances !! k = Some a → k = Py.lower (name a).
Proof.
  unfold agent_instances. intros H.
  repeat (apply lookup_insert_Some in H as [[<- <-]|[_ H]]; [done|]).
  by apply lookup_singleton_Some in H as [<- <-].
Qed.

Lemma agent_instances_inj k1 k2 a :
  agent_instances !! k1 = Some a → agent_instances !! k2 = Some a → k1 = k2.
Proof. intros H1%agent_instances_Some H2%agent_instances_Some. congruence. Qed.

Lemma agent_instances_dom :
  dom agent_instances =
    ({["coder"; "project_manager"; "tester"; "debugger"]} : gset string).
Proof. unfold agent_instances. rewrite !dom_insert_L, dom_singleton_L. set_solver. Qed.

End registry.

(** ** First occurrences *)

Section first_occurrences.

Lemma first_occurrences_elem_of l x : x ∈ first_occurrences l ↔ x ∈ l.
Proof.
  induction l as [|y l IH]; simpl; [done|].
  rewrite !elem_of_cons, list_elem_of_filter, IH.
  destruct (decide (x = y)); naive_solver.
Qed.

Lemma first_occurrences_NoDup l : NoDup (first_occurrences l).
Proof.
  induction l as [|y l IH]; simpl; [constructor|].
  apply NoDup_cons. split.
  - rewrite list_elem_of_filter. naive_solver.
  - by apply NoDup_filter.
Qed.

(** Reading [l] from the left, an element joins the result when it is
    met for the first time. *)
Lemma first_occurrences_snoc l x :
  first_occurrences (l ++ [x]) =
    if decide (x ∈ l) then first_occurrences l else first_occurrences l ++ [x].
Proof.
  induction l as [|y l IH].
  - case_decide as Hin; [by apply elem_of_nil in Hin|done].
  - simpl. rewrite IH.
    destruct (decide (x ∈ l)) as [Hl|Hl], (decide (x ∈ y :: l)) as [Hyl|Hyl];
      rewrite elem_of_cons in Hyl; try naive_solver.
    + destruct Hyl as [->|?]; [|done].
      rewrite filter_app, filter_cons_False by naive_solver.
      by rewrite filter_nil, app_nil_r.
    + rewrite filter_app, filter_cons_True by naive_solver.
      by rewrite filter_nil.
Qed.

(** [first_occurrences] keeps the order of [l]. *)
Lemma first_occurrences_sublist l : first_occurrences l `sublist_of` l.
Proof.
  induction l as [|y l IH]; simpl; [done|].
  apply sublist_skip. etrans; [apply sublist_filter|done].
Qed.

Lemma NoDup_omap_inj {A B} (f : A → option B) (l : list A) :
  NoDup l →
  (∀ x y b, x ∈ l → y ∈ l → f x = Some b → f y = Some b → x = y) →
  NoDup (omap f l).
Proof.
  induction 1 as [|x l Hx Hl IH]; intros Hinj; csimpl; [constructor|].
  assert (NoDup (omap f l)) as Hnd.
  { apply IH. intros ?????. apply Hinj; by apply list_elem_of_further. }
  destruct (f x) as [b|] eqn:Hfx; [|done].
  apply NoDup_cons. split; [|done].
  intros (y & Hy & Hfy)%list_elem_of_omap.
  apply Hx. rewrite (Hinj x y b); eauto using list_elem_of_here, list_elem_of_further.
Qed.

End first_occurrences.

(** ** The schedule builder *)

Section builder.
Context `{!Py.Lower}.

(** The state of the collecting loop after the subtasks [l]. *)
Lemma foldl_visit l :
  let roles := (Py.lower ∘ agent) <$> l in
  foldl visit start l =
    mkCollected (list_to_set roles)
                (omap (agent_instances !!.) (first_occurrences roles))
                roles.
Proof.
  induction l as [|s l IH] using rev_ind; simpl; [done|].
  rewrite foldl_snoc, IH, fmap_app. simpl.
  rewrite first_occurrences_snoc. unfold visit. simpl.
  rewrite list_to_set_app_L. simpl.
  set (r := Py.lower (agent s)). set (roles := (Py.lower ∘ agent) <$> l).
  destruct (decide (r ∈ list_to_set (C := gset string) roles)) as [Hin|Hin].
  - rewrite decide_True by (by apply elem_of_list_to_set in Hin).
    f_equal. set_solver.
  - rewrite decide_False by (by rewrite elem_of_list_to_set in Hin).
    rewrite omap_app. csimpl.
    destruct (agent_instances !! r); simpl; rewrite ?app_nil_r; f_equal; set_solver.
Qed.

Lemma collect_agents_order loops task :
  agent_order (collect_agents loops task) =
    scheduled_roles task
      ++ (if decide (fixer ∈ scheduled_roles task) then [] else [fixer])
      ++ debug_loop loops.
Proof.
  unfold collect_agents, add_debugger, scheduled_roles, fixer.
  rewrite foldl_visit. simpl.
  destruct (decide ("debugger" ∈ list_to_set (C := gset string) _)) as [Hin|Hin]; simpl.
  - by rewrite decide_True by (by apply elem_of_list_to_set in Hin).
  - rewrite decide_False by (by rewrite elem_of_list_to_set in Hin).
    by rewrite <- app_assoc.
Qed.

Lemma collect_agents_ordered loops task :
  ordered_agents (collect_agents loops task) =
    omap (agent_instances !!.) (first_occurrences (scheduled_roles task ++ [fixer])).
Proof.
  unfold collect_agents, add_debugger, scheduled_roles, fixer.
  rewrite foldl_visit, first_occurrences_snoc. simpl.
  destruct (decide ("debugger" ∈ list_to_set (C := gset string) _)) as [Hin|Hin]; simpl.
  - by rewrite decide_True by (by apply elem_of_list_to_set in Hin).
  - rewrite decide_False by (by rewrite elem_of_list_to_set in Hin).
    by rewrite omap_app.
Qed.

Lemma debug_loop_length loops : length (debug_loop loops) = 3 * loops.
Proof.
  unfold debug_loop. induction loops as [|n IH]; simpl; [done|].
  simpl in IH. rewrite IH. lia.
Qed.

Lemma debug_loop_S loops :
  debug_loop (S loops) = [verifier; fixer; implementer] ++ debug_loop loops.
Proof. done. Qed.

Lemma debug_loop_lookup loops i :
  i < 3 * loops →
  debug_loop loops !! i = [verifier; fixer; implementer] !! (i mod 3).
Proof.
  revert i. induction loops as [|n IH]; intros i Hi; [lia|].
  rewrite debug_loop_S.
  destruct (decide (i < 3)) as [Hlt|Hge].
  - rewrite lookup_app_l by (simpl; lia). by rewrite Nat.mod_small.
  - rewrite lookup_app_r by (simpl; lia). simpl length.
    rewrite IH by lia. f_equal.
    replace i with ((i - 3) + 1 * 3) at 2 by lia.
    by rewrite Nat.Div0.mod_add.
Qed.

Lemma ordered_agents_head loops task :
  is_Some (head (ordered_agents (collect_agents loops task))).
Proof.
  assert (debugger ∈ ordered_agents (collect_agents loops task)) as Hin.
  { rewrite collect_agents_ordered. apply list_elem_of_omap.
    exists fixer. split; [|done].
    apply first_occurrences_elem_of, elem_of_app. right. apply list_elem_of_here. }
  destruct (ordered_agents _); [by apply elem_of_nil in Hin|by eexists].
Qed.

End builder.

(** With the lower-casing of ASCII text, every entry of the agent order
    is its own lower-case form and every collected agent is filed under
    its lower-cased name. *)
Lemma agent_order_lower_case loops task :
  Forall (λ r, Py.lower r = r) (agent_order (collect_agents loops task)).
Proof.
  rewrite collect_agents_order, !Forall_app. split_and!.
  - unfold scheduled_roles. apply Forall_fmap, Forall_forall.
    intros s _. apply lower_idemp.
  - case_decide; by repeat constructor.
  - induction loops as [|n IH]; [constructor|].
    rewrite debug_loop_S. apply Forall_app. split; [|done].
    by repeat constructor.
Qed.

Lemma ordered_agents_registered loops task a :
  a ∈ ordered_agents (collect_agents loops task) →
  agent_instances !! Py.lower (name a) = Some a.
Proof.
  rewrite collect_agents_ordered.
  intros (k & _ & Hk)%list_elem_of_omap.
  by rewrite <- (agent_instances_Some k a Hk).
Qed.

(** C5: for every task and every number of loops, the agent order ends
    with the debug loop, which has exactly [3 * loops] entries repeating
    (tester, debugger, coder); it is appended whatever roles the primary
    pass already holds, and the configured number of loops is 3. *)
Theorem C5_recovery_cycle_suffix `{!Py.Lower} loops task :
  let order := agent_order (collect_agents loops task) in
  let primary :=
    scheduled_roles task
      ++ (if decide (fixer ∈ scheduled_roles task) then [] else [fixer]) in
  order = primary ++ debug_loop loops ∧
  debug_loop loops `suffix_of` order ∧
  length (debug_loop loops) = 3 * loops ∧
  length order = length primary + 3 * loops ∧
  (∀ i, i < 3 * loops →
        order !! (length primary + i) = [verifier; fixer; implementer] !! (i mod 3)) ∧
  num_debug_loops = 3 ∧
  agent_order (collect_agents num_debug_loops task) =
    primary ++ [verifier; fixer; implementer; verifier; fixer; implementer;
                verifier; fixer; implementer].
Proof.
  intros order primary.
  assert (order = primary ++ debug_loop loops) as Horder.
  { subst order primary. by rewrite collect_agents_order, app_assoc. }
  split_and!; try done.
  - rewrite Horder. by apply suffix_app_r.
  - apply debug_loop_length.
  - by rewrite Horder, length_app, debug_loop_length.
  - intros i Hi. rewrite Horder, lookup_app_r by lia.
    replace (length primary + i - length primary) with i by lia.
    by apply debug_loop_lookup.
  - subst primary. by rewrite collect_agents_order, app_assoc.
Qed.

(** C6: the debugger is in the agent order of every task; when no subtask
    names it, it is appended once, right after the subtask roles and
    before the debug loop. *)
Theorem C6_fixer_always_scheduled `{!Py.Lower} loops task :
  fixer ∈ agent_order (collect_agents loops task) ∧
  (fixer ∉ scheduled_roles task →
   agent_order (collect_agents loops task) =
     scheduled_roles task ++ [fixer] ++ debug_loop loops).
Proof.
  rewrite collect_agents_order. split.
  - rewrite !elem_of_app. case_decide; [by left|].
    right. left. apply list_elem_of_here.
  - intros Hnot. by rewrite decide_False.
Qed.

Lemma C6_fixer_always_scheduled_witness :
  agent_order (collect_agents 1 scenario) =
    ["planner"; "coder"; "debugger"; "tester"; "debugger"; "coder"].
Proof.
  refine (proj2 (C6_fixer_always_scheduled 1 scenario) _).
  vm_compute. intros H.
  repeat (apply elem_of_cons in H as [H|H]; [discriminate H|]).
  by apply elem_of_nil in H.
Defined.

(** C8: two calls of the collecting code, the second in the environment
    the first one left, on tasks with the same sequence of subtask roles
    (equal tasks in particular) end with the same agents and the same
    agent order, whatever the locals held before and whatever else the
    tasks contain; a call leaves the module variable as it was. The agent
    order is the [lower()] of each subtask role, in plan order, followed
    by the constant entries. *)
Theorem C8_build_deterministic `{!Py.Lower} (env : Env) t1 t2 :
  agent <$> tasks t1 = agent <$> tasks t2 →
  let first := run_collect t1 env in
  let second := run_collect t2 first in
  env_locals second = env_locals first ∧
  env_num_debug_loops second = env_num_debug_loops env ∧
  (∀ locals,
     env_locals (run_collect t1 (mkEnv (env_num_debug_loops env) locals))
       = env_locals first) ∧
  (∀ loops, collect_agents loops t1 = collect_agents loops t2) ∧
  agent_order (env_locals first) =
    (Py.lower <$> (agent <$> tasks t1))
      ++ (if decide (fixer ∈ Py.lower <$> (agent <$> tasks t1))
          then [] else [fixer])
      ++ debug_loop (env_num_debug_loops env).
Proof.
  intros Hroles first second.
  assert (∀ loops, collect_agents loops t1 = collect_agents loops t2) as Hsame.
  { intros loops. unfold collect_agents. rewrite !foldl_visit.
    by rewrite !(list_fmap_compose agent Py.lower), Hroles. }
  split_and!; try done.
  - subst first second. unfold run_collect. cbn [env_locals env_num_debug_loops].
    by rewrite Hsame.
  - subst first. unfold run_collect. cbn [env_locals env_num_debug_loops].
    rewrite collect_agents_order.
    unfold scheduled_roles. by rewrite !(list_fmap_compose agent Py.lower).
Qed.

Lemma C8_build_deterministic_witness :
  let other := mkTask "other" "same roles" ["coder"]
                 [mkSubtask "draw" "Planner"; mkSubtask "build" "CODER"] in
  let again := mkTask "again" "once more" []
                 [mkSubtask "sketch" "Planner"; mkSubtask "write" "CODER"] in
  let env := mkEnv 3 (mkCollected {["tester"]} [tester] ["tester"]) in
  env_locals (run_collect again (run_collect other env))
    = env_locals (run_collect other env) ∧
  agent_order (env_locals (run_collect other env)) =
    ["planner"; "coder"; "debugger"; "tester"; "debugger"; "coder";
     "tester"; "debugger"; "coder"; "tester"; "debugger"; "coder"].
Proof.
  intros other again env.
  destruct (C8_build_deterministic env other again) as (Hsame & _ & _ & _ & Horder);
    [reflexivity|].
  split; [exact Hsame|]. rewrite Horder. reflexivity.
Defined.

(** ** The turn selector *)

Section selector_facts.
Context {Message : Type} `{!Py.Lower}.
Implicit Types (agents : list Agent) (order : list string)
               (messages : list Message).

Lemma turn_index_lt n len : len ≠ 0 → turn_index n len < len.
Proof. intros. unfold turn_index. by apply Nat.mod_upper_bound. Qed.

Lemma pymod_turn_index n len :
  len ≠ 0 → Py.pymod (n / 3) len = Py.Ok (turn_index n len).
Proof. by destruct len. Qed.

(** With messages and a non-empty agent order, the selector looks up
    the scheduled role and searches the agents for it. *)
Lemma selector_scheduled agents order messages :
  messages ≠ [] → order ≠ [] →
  ∃ scheduled,
    order !! turn_index (length messages) (length order) = Some scheduled ∧
    custom_speaker_selection_func agents (Some order) messages =
      next_matching agents (Py.lower scheduled).
Proof.
  intros Hm Ho.
  assert (length order ≠ 0) as Hlen by (by destruct order).
  destruct (lookup_lt_is_Some_2 order (turn_index (length messages) (length order)))
    as [scheduled Hs]; [by apply turn_index_lt|].
  exists scheduled. split; [done|].
  destruct messages as [|m messages]; [done|].
  destruct order as [|r order]; [done|].
  unfold custom_speaker_selection_func.
  rewrite pymod_turn_index by done. cbn [mbind Py.result_bind].
  unfold Py.getitem at 1. by rewrite Hs.
Qed.

(** The search returns the first agent of that name. *)
Lemma next_matching_found agents agent_name :
  Exists (λ a, Py.lower (name a) = agent_name) agents →
  ∃ i a,
    next_matching agents agent_name = Py.Ok a ∧
    agents !! i = Some a ∧
    Py.lower (name a) = agent_name ∧
    (∀ j b, agents !! j = Some b → j < i → Py.lower (name b) ≠ agent_name).
Proof.
  intros (a' & Hin & Hname)%Exists_exists.
  destruct (list_find_elem_of (λ a, Py.lower (name a) = agent_name) agents a')
    as [[i a] Hfind]; [done..|].
  exists i, a. unfold next_matching. rewrite Hfind.
  apply list_find_Some in Hfind as (Hi & Ha & Hfirst).
  destruct agents as [|a0 agents]; [done|].
  split_and!; try done.
Qed.

(** Without an agent of that name, it returns [agents[0]]. *)
Lemma next_matching_default agents agent_name first :
  head agents = Some first →
  Forall (λ a, Py.lower (name a) ≠ agent_name) agents →
  next_matching agents agent_name = Py.Ok first.
Proof.
  intros Hhead Hnone. unfold next_matching.
  apply (list_find_None (λ a, Py.lower (name a) = agent_name)) in Hnone.
  rewrite Hnone. destruct agents; by simplify_eq/=.
Qed.

Lemma next_matching_elem_of agents agent_name first :
  head agents = Some first →
  ∃ a, next_matching agents agent_name = Py.Ok a ∧ a ∈ agents.
Proof.
  intros Hhead.
  destruct (decide (Exists (λ a, Py.lower (name a) = agent_name) agents))
    as [Hex|Hnex].
  - destruct (next_matching_found _ _ Hex) as (i & a & -> & Hi & _).
    exists a. eauto using list_elem_of_lookup_2.
  - apply not_Exists_Forall in Hnex; [|solve_decision].
    exists first. split.
    + apply next_matching_default; [done|].
      eapply Forall_impl; [exact Hnex|]. done.
    + destruct agents; simplify_eq/=. apply list_elem_of_here.
Qed.

End selector_facts.

(** C2: with at least one message and a non-empty agent order, the
    selector takes the role at index [(len(messages) // 3) % len(agent_order)];
    when an agent of that name (compared in lower case) is among the
    agents, it returns that agent, the first of that name. *)
Theorem C2_scheduled_role_selected {Message : Type} `{!Py.Lower}
    (agents : list Agent) (order : list string) (messages : list Message) :
  (1 ≤ length messages)%nat →
  order ≠ [] →
  ∃ scheduled,
    order !! ((length messages / 3) mod length order) = Some scheduled ∧
    (Exists (λ a, Py.lower (name a) = Py.lower scheduled) agents →
     ∃ i a,
       custom_speaker_selection_func agents (Some order) messages = Py.Ok a ∧
       agents !! i = Some a ∧
       Py.lower (name a) = Py.lower scheduled ∧
       (∀ j b, agents !! j = Some b → j < i →
               Py.lower (name b) ≠ Py.lower scheduled)).
Proof.
  intros Hlen Horder.
  assert (messages ≠ []) as Hm by (destruct messages; simpl in *; [lia|done]).
  destruct (selector_scheduled agents order messages Hm Horder)
    as (scheduled & Hs & ->).
  exists scheduled. split; [done|]. apply next_matching_found.
Qed.

Lemma C2_scheduled_role_selected_witness :
  ∃ scheduled,
    ["planner"; "CODER"; "tester"] !! ((length [(); (); (); ()] / 3) mod 3)
      = Some scheduled ∧
    (Exists (λ a, Py.lower (name a) = Py.lower scheduled) [debugger; coder] →
     ∃ i a,
       custom_speaker_selection_func [debugger; coder]
         (Some ["planner"; "CODER"; "tester"]) [(); (); (); ()] = Py.Ok a ∧
       [debugger; coder] !! i = Some a ∧
       Py.lower (name a) = Py.lower scheduled ∧
       (∀ j b, [debugger; coder] !! j = Some b → j < i →
               Py.lower (name b) ≠ Py.lower scheduled)).
Proof.
  apply (C2_scheduled_role_selected [debugger; coder]
           ["planner"; "CODER"; "tester"] [(); (); (); ()]).
  - simpl. lia.
  - discriminate.
Defined.

(** C3: with a non-empty agent order and non-empty agents the selector
    always returns one of the agents, for any number of messages; when no
    agent has the scheduled name it returns the first agent. *)
Theorem C3_fallback_first_agent {Message : Type} `{!Py.Lower}
    (agents : list Agent) (order : list string) (messages : list Message)
    (first : Agent) :
  order ≠ [] →
  head agents = Some first →
  (∃ a, custom_speaker_selection_func agents (Some order) messages = Py.Ok a ∧
        a ∈ agents) ∧
  (∀ scheduled,
     order !! ((length messages / 3) mod length order) = Some scheduled →
     Forall (λ a, Py.lower (name a) ≠ Py.lower scheduled) agents →
     custom_speaker_selection_func agents (Some order) messages = Py.Ok first).
Proof.
  intros Horder Hhead.
  destruct messages as [|m messages].
  - assert (custom_speaker_selection_func (Message := Message) agents (Some order) []
            = Py.Ok first) as ->.
    { destruct agents; by simplify_eq/=. }
    split; [|done]. exists first. split; [done|].
    destruct agents; simplify_eq/=. apply list_elem_of_here.
  - destruct (selector_scheduled agents order (m :: messages))
      as (scheduled & Hs & ->); [done..|].
    split; [by eapply next_matching_elem_of|].
    intros scheduled' Hs' Hnone. unfold turn_index in Hs.
    rewrite Hs in Hs'. injection Hs' as <-.
    by apply next_matching_default.
Qed.

Lemma C3_fallback_first_agent_witness :
  (∃ a, custom_speaker_selection_func [coder; debugger]
          (Some ["planner"; "coder"]) [(); ()] = Py.Ok a ∧
        a ∈ [coder; debugger]) ∧
  custom_speaker_selection_func [coder; debugger]
    (Some ["planner"; "coder"]) [(); ()] = Py.Ok coder.
Proof.
  destruct (C3_fallback_first_agent [coder; debugger] ["planner"; "coder"]
              [(); ()] coder) as [Hmem Hfirst]; [discriminate|reflexivity|].
  split; [exact Hmem|].
  apply (Hfirst "planner"); [reflexivity|].
  repeat constructor; discriminate.
Defined.

(** C4, as the specification states it, fails: the selector has no
    first-role argument. With the agents coder and debugger it opens with
    the coder, so a first role "debugger", although active, is not
    returned; with no agents it returns no role at all but raises
    [IndexError]. *)
Lemma C4_first_role_refuted :
  debugger ∈ [coder; debugger] ∧
  custom_speaker_selection_func (Message := unit) [coder; debugger]
    (Some ["debugger"]) [] = Py.Ok coder ∧
  custom_speaker_selection_func (Message := unit) [coder; debugger]
    (Some ["debugger"]) [] ≠ Py.Ok debugger ∧
  custom_speaker_selection_func (Message := unit) []
    (Some ["debugger"]) [] = Py.Raise Py.IndexError ∧
  (∀ first, custom_speaker_selection_func (Message := unit) []
              (Some ["debugger"]) [] ≠ Py.Ok first).
Proof.
  split_and!; try done.
  apply list_elem_of_further, list_elem_of_here.
Qed.

(** C4, amended: before the first message the selector returns the first
    of the active agents, [agents[0]], for every non-empty agent list and
    whatever the agent order is (absent, empty or not). *)
Theorem C4_first_turn {Message : Type} `{!Py.Lower}
    (agents : list Agent) (order : option (list string)) (first : Agent) :
  head agents = Some first →
  custom_speaker_selection_func (Message := Message) agents order [] = Py.Ok first.
Proof. intros Hhead. destruct agents; by simplify_eq/=. Qed.

Lemma C4_first_turn_witness :
  custom_speaker_selection_func (Message := unit) [project_manager; tester]
    (Some ["tester"; "coder"]) [] = Py.Ok project_manager.
Proof. apply C4_first_turn. reflexivity. Defined.

(** C9: with non-empty agents and at least one message, an empty agent
    order raises nothing: it is handled like an absent one, and the
    selector returns the agent at index
    [(len(messages) // 3) % len(agents)]. *)
Theorem C9_empty_order_rotation {Message : Type} `{!Py.Lower}
    (agents : list Agent) (messages : list Message) :
  agents ≠ [] →
  messages ≠ [] →
  ∃ a,
    custom_speaker_selection_func agents (Some []) messages = Py.Ok a ∧
    agents !! ((length messages / 3) mod length agents) = Some a ∧
    custom_speaker_selection_func agents None messages = Py.Ok a.
Proof.
  intros Ha Hm.
  assert (length agents ≠ 0) as Hlen by (by destruct agents).
  destruct (lookup_lt_is_Some_2 agents (turn_index (length messages) (length agents)))
    as [a Hi]; [by apply turn_index_lt|].
  exists a. destruct messages as [|m messages]; [done|].
  unfold custom_speaker_selection_func.
  rewrite pymod_turn_index by done. cbn [mbind Py.result_bind].
  unfold Py.getitem. by rewrite Hi.
Qed.

Lemma C9_empty_order_rotation_witness :
  ∃ a,
    custom_speaker_selection_func [coder; tester; debugger] (Some [])
      [(); (); (); ()] = Py.Ok a ∧
    [coder; tester; debugger] !! ((length [(); (); (); ()] / 3) mod 3) = Some a ∧
    custom_speaker_selection_func [coder; tester; debugger] None
      [(); (); (); ()] = Py.Ok a.
Proof.
  apply (C9_empty_order_rotation [coder; tester; debugger] [(); (); (); ()]);
    discriminate.
Defined.

(** The closure is installed as the speaker selection of the chat unless
    exactly one agent was collected; a single agent gets the [auto]
    selection of the chat library. *)
Lemma execute_agent_tasks_selection {Message : Type} loops task :
  let st := collect_agents loops task in
  speaker_selection_method (execute_agent_tasks_with (Message := Message) loops task).2 =
    match ordered_agents st with
    | [_] => auto
    | agents => custom (custom_speaker_selection_func agents (Some (agent_order st)))
    end.
Proof.
  intros st. unfold execute_agent_tasks_with, setup_group_chat. fold st.
  by destruct (ordered_agents st) as [|a [|b l]].
Qed.

(** C10, as the specification states it, fails for a task whose only
    registered role is the debugger: in [Examples.task_review] the role
    "reviewer" has no registry entry and is scheduled first, but one agent
    is collected and the chat gets the [auto] selection, not the closure:
    the turn scheduled for "reviewer" does not go through the fallback. *)
Lemma C10_single_agent_refuted :
  agent_instances !! "reviewer" = None ∧
  scheduled_roles Examples.task_review !! 0 = Some "reviewer" ∧
  agent_order (collect_agents num_debug_loops Examples.task_review) !! 0
    = Some "reviewer" ∧
  ordered_agents (collect_agents num_debug_loops Examples.task_review)
    = [debugger] ∧
  speaker_selection_method
    (execute_agent_tasks (Message := unit) Examples.task_review).2 = auto ∧
  (∀ f, speaker_selection_method
          (execute_agent_tasks (Message := unit) Examples.task_review).2
        ≠ custom f).
Proof. split_and!; try done. Qed.

(** C10, amended: the agent list [execute_agent_tasks] returns is the
    list of collected agents; it has no duplicates, holds the registered
    agents of the roles in the order of their first occurrence (the
    debugger last when no subtask names it) and only agents of the
    registry. A role without a registry entry keeps its positions in the
    agent order. When one agent is collected the chat gets the [auto]
    selection and the agent order is not consulted; otherwise the closure
    is installed, and whenever a role without registry entry is scheduled
    it returns the first agent. *)
Theorem C10_registered_agents_once {Message : Type} loops task :
  let st := collect_agents loops task in
  (execute_agent_tasks_with (Message := Message) loops task).1 = ordered_agents st ∧
  NoDup (ordered_agents st) ∧
  ordered_agents st =
    omap (agent_instances !!.) (first_occurrences (scheduled_roles task ++ [fixer])) ∧
  (∀ a, a ∈ ordered_agents st → a ∈ [coder; project_manager; tester; debugger]) ∧
  (∀ i r, scheduled_roles task !! i = Some r → agent_order st !! i = Some r) ∧
  (length (ordered_agents st) = 1 →
   speaker_selection_method
     (execute_agent_tasks_with (Message := Message) loops task).2 = auto) ∧
  (length (ordered_agents st) ≠ 1 →
   speaker_selection_method
     (execute_agent_tasks_with (Message := Message) loops task).2
     = custom (custom_speaker_selection_func (ordered_agents st)
                 (Some (agent_order st))) ∧
   ∀ (messages : list Message) r,
     messages ≠ [] →
     agent_order st !! ((length messages / 3) mod length (agent_order st)) = Some r →
     agent_instances !! r = None →
     ∃ first,
       head (ordered_agents st) = Some first ∧
       custom_speaker_selection_func (ordered_agents st) (Some (agent_order st))
         messages = Py.Ok first).
Proof.
  intros st.
  pose proof (execute_agent_tasks_selection (Message := Message) loops task)
    as Hsel. cbv zeta in Hsel. fold st in Hsel.
  split_and!.
  - unfold execute_agent_tasks_with, setup_group_chat. fold st.
    by destruct (ordered_agents st) as [|a [|b l]].
  - subst st. rewrite collect_agents_ordered.
    apply NoDup_omap_inj; [apply first_occurrences_NoDup|].
    intros ??? _ _. apply agent_instances_inj.
  - apply collect_agents_ordered.
  - intros a Ha%ordered_agents_registered.
    unfold agent_instances in Ha.
    repeat (apply lookup_insert_Some in Ha as [[_ <-]|[_ Ha]];
            [rewrite !elem_of_cons; tauto|]).
    apply lookup_singleton_Some in Ha as [_ <-]. rewrite !elem_of_cons; tauto.
  - intros i r Hi. subst st. rewrite collect_agents_order.
    by apply lookup_app_l_Some.
  - intros Hone. rewrite Hsel.
    by destruct (ordered_agents st) as [|a [|b l]].
  - intros Hmany. split.
    { rewrite Hsel. by destruct (ordered_agents st) as [|a [|b l]]. }
    intros messages r Hm Hr Hnone.
    destruct (ordered_agents_head loops task) as [first Hfirst].
    exists first. split; [done|].
    destruct (selector_scheduled (ordered_agents st) (agent_order st) messages)
      as (scheduled & Hs & ->); [done| |].
    { intros Hnil. by rewrite Hnil in Hr. }
    unfold turn_index in Hs. rewrite Hr in Hs. injection Hs as <-.
    apply next_matching_default; [done|].
    apply Forall_forall. intros a Ha%ordered_agents_registered Heq.
    assert (Py.lower r = r) as Hlow.
    { eapply (proj1 (Forall_forall _ _) (agent_order_lower_case loops task)).
      by eapply list_elem_of_lookup_2. }
    rewrite Heq, Hlow in Ha. congruence.
Qed.

Lemma C10_registered_agents_once_witness :
  speaker_selection_method (execute_agent_tasks_with (Message := unit) 3 scenario).2
    = custom (custom_speaker_selection_func
                (ordered_agents (collect_agents 3 scenario))
                (Some (agent_order (collect_agents 3 scenario)))) ∧
  ∃ first,
    head (ordered_agents (collect_agents 3 scenario)) = Some first ∧
    custom_speaker_selection_func
      (ordered_agents (collect_agents 3 scenario))
      (Some (agent_order (collect_agents 3 scenario))) [()] = Py.Ok first.
Proof.
  destruct (C10_registered_agents_once (Message := unit) 3 scenario)
    as (_ & _ & _ & _ & _ & _ & Hmany).
  destruct Hmany as [Hcustom Hfallback]; [discriminate|].
  split; [exact Hcustom|].
  apply (Hfallback [()] "planner"); [discriminate|reflexivity|reflexivity].
Defined.

(** ** The concrete scenario *)

(** C7: the scenario plan, with subtasks for the planner and the coder
    and three debug loops, gives the twelve-entry agent order (planner,
    coder, fixer, then three times verifier, fixer, implementer), the
    roles being the project manager, the debugger, the tester and the
    coder of the code. The selector built for it opens with the planner;
    after three messages it returns the agent of the entry at index 1, the
    coder, and after six messages that of the entry at index 2, the
    fixer. *)
Theorem C7_scenario :
  let order := agent_order (collect_agents num_debug_loops scenario_plan) in
  order =
    [planner; "coder"; fixer; verifier; fixer; implementer;
     verifier; fixer; implementer; verifier; fixer; implementer] ∧
  length order = 12 ∧
  num_debug_loops = 3 ∧
  ∃ f opening second third,
    speaker_selection_method
      (execute_agent_tasks (Message := unit) scenario_plan).2 = custom f ∧
    f [] = Py.Ok opening ∧ Py.lower (name opening) = planner ∧
    (3 / 3) mod length order = 1 ∧
    f (replicate 3 ()) = Py.Ok second ∧
    Some (Py.lower (name second)) = order !! 1 ∧
    Py.lower (name second) = "coder" ∧
    (6 / 3) mod length order = 2 ∧
    f (replicate 6 ()) = Py.Ok third ∧
    Some (Py.lower (name third)) = order !! 2 ∧
    Py.lower (name third) = fixer.
Proof.
  intros order. split_and!; [reflexivity..|].
  eexists _, project_manager, coder, debugger. split_and!; reflexivity.
Qed.

(** * Further properties of the plan parser *)

Section parser_edges.

Lemma required_text_Some t e v :
  required_text t e = Some v ↔ ∃ c, find t e = Some c ∧ text c = Some v.
Proof.
  unfold required_text. destruct (find t e) as [c|]; simpl; naive_solver.
Qed.

(** [parse_root_as_task] fails exactly when the root has no [name] or no
    [description] child, or the first such child has no text; the
    [delegatedTo] and [tasks] children never make it fail. *)
Theorem parse_root_as_task_None root_element :
  parse_root_as_task root_element = None ↔
    (∀ c, find "name" root_element = Some c → text c = None) ∨
    (∀ c, find "description" root_element = Some c → text c = None).
Proof.
  unfold parse_root_as_task, required_text.
  destruct (find "name" root_element) as [[? [?|] ?]|],
           (find "description" root_element) as [[? [?|] ?]|]; simpl;
    naive_solver.
Qed.

(** [parse_project_plan] returns at most one task, and returns one
    exactly for a parsed document with root tag [project_plan] that
    [parse_root_as_task] accepts; a missing file, a file that is not XML
    and any other root tag give the empty list. *)
Theorem parse_project_plan_singleton f :
  (length (parse_project_plan f) ≤ 1)%nat ∧
  ∀ task,
    task ∈ parse_project_plan f ↔
      ∃ root, f = Document root ∧ tag root = "project_plan" ∧
              parse_root_as_task root = Some task.
Proof.
  destruct f as [| |root]; simpl.
  - split; [lia|]. intros task. rewrite elem_of_nil. naive_solver.
  - split; [lia|]. intros task. rewrite elem_of_nil. naive_solver.
  - destruct (decide (tag root = "project_plan")) as [Ht|Ht];
      [destruct (parse_root_as_task root) as [t|] eqn:Hp|]; simpl.
    + split; [lia|]. intros task. rewrite list_elem_of_singleton. naive_solver.
    + split; [lia|]. intros task. rewrite elem_of_nil. naive_solver.
    + split; [lia|]. intros task. rewrite elem_of_nil. naive_solver.
Qed.

(** The delegated agents of a parsed task are the non-empty texts of the
    [agent] children of the first [delegatedTo] child, in document order;
    no entry is the empty string. *)
Theorem parse_delegated_nonempty root_element task :
  parse_root_as_task root_element = Some task →
  Forall (λ a, a ≠ "") (delegatedTo task) ∧
  ∀ a, a ∈ delegatedTo task ↔
       a ≠ "" ∧
       ∃ d c, find "delegatedTo" root_element = Some d ∧
              c ∈ findall "agent" d ∧ text c = Some a.
Proof.
  unfold parse_root_as_task.
  destruct (required_text "name" root_element) as [n|],
           (required_text "description" root_element) as [dsc|]; try done.
  intros [= <-]. simpl. unfold parse_delegated.
  assert (∀ (c : Element) a,
            (if Py.truthy (text c) then text c else None) = Some a ↔
            a ≠ "" ∧ text c = Some a) as Htruthy.
  { intros c a. destruct (text c) as [[|ch s]|]; simpl; naive_solver. }
  destruct (find "delegatedTo" root_element) as [d|].
  - split.
    + apply Forall_forall. intros a (c & _ & Hc)%list_elem_of_omap.
      by apply Htruthy in Hc as [? _].
    + intros a. rewrite list_elem_of_omap. split.
      * intros (c & Hin & [Hne Ht]%Htruthy). eauto 6.
      * intros (Hne & d' & c & [= <-] & Hin & Ht).
        exists c. split; [done|]. by apply Htruthy.
  - split; [constructor|]. intros a. rewrite elem_of_nil. naive_solver.
Qed.

Lemma length_omap_le {A B} (f : A → option B) (l : list A) :
  (length (omap f l) ≤ length l)%nat.
Proof.
  induction l as [|x l IH]; csimpl; [done|].
  destruct (f x); simpl; lia.
Qed.

Lemma length_omap_eq {A B} (f : A → option B) (l : list A) :
  length (omap f l) = length l ↔ Forall (λ x, is_Some (f x)) l.
Proof.
  induction l as [|x l IH]; csimpl.
  - split; [constructor|done].
  - rewrite Forall_cons. pose proof (length_omap_le f l).
    destruct (f x) as [y|] eqn:Hfx; simpl.
    + rewrite <- IH. split; [intros [= ?]; eauto|intros [_ ?]; lia].
    + split; [lia|]. intros [[y Hy] _]. done.
Qed.

(** A parsed task never has more subtasks than the document has [task]
    entries, and it has as many exactly when every entry has a [name] and
    a [delegatedTo] text. *)
Theorem parse_subtasks_count root_element task :
  parse_root_as_task root_element = Some task →
  (length (tasks task) ≤ length (subtask_entries root_element))%nat ∧
  (length (tasks task) = length (subtask_entries root_element) ↔
   Forall (λ e, is_Some (parse_task e)) (subtask_entries root_element)).
Proof.
  unfold parse_root_as_task.
  destruct (required_text "name" root_element),
           (required_text "description" root_element); try done.
  intros [= <-]. simpl. rewrite parse_subtasks_omap.
  split; [apply length_omap_le|apply length_omap_eq].
Qed.

End parser_edges.

Lemma parse_delegated_nonempty_witness :
  Forall (λ a, a ≠ "") (delegatedTo Examples.task_complete).
Proof.
  apply (parse_delegated_nonempty Examples.plan_complete Examples.task_complete).
  reflexivity.
Defined.

Lemma parse_subtasks_count_witness :
  (length [mkSubtask "implement" "coder"]
     ≤ length (subtask_entries plan_missing_role))%nat.
Proof.
  apply (parse_subtasks_count plan_missing_role
           (mkTask "calculator" "a command line calculator" []
              [mkSubtask "implement" "coder"])).
  reflexivity.
Defined.

(** * The strict parser of the evaluation scripts *)

Section strict_parser.
Import TaskFormat.

Lemma parse_entry_inr file_name e s :
  parse_entry file_name e = inr s ↔ parse_task e = Some s.
Proof.
  unfold parse_entry, parse_task, required_text.
  destruct (find "name" e) as [[? [?|] ?]|],
           (find "delegatedTo" e) as [[? [?|] ?]|]; simpl; naive_solver.
Qed.

Lemma parse_entry_inl file_name e error_msg :
  parse_entry file_name e = inl error_msg →
  parse_task e = None ∧ error_msg ≠ "".
Proof.
  unfold parse_entry, parse_task, required_text.
  destruct (find "name" e) as [[? [?|] ?]|],
           (find "delegatedTo" e) as [[? [?|] ?]|]; simpl;
    intros [= <-]; done.
Qed.

Lemma parse_entries_inr file_name entries acc subtasks :
  parse_entries file_name acc entries = inr subtasks ↔
    Forall (λ e, is_Some (parse_task e)) entries ∧
    subtasks = acc ++ omap parse_task entries.
Proof.
  revert acc. induction entries as [|e entries IH]; intros acc; csimpl.
  - rewrite app_nil_r. split; [intros [= <-]; by split|by intros [_ ->]].
  - rewrite Forall_cons.
    destruct (parse_entry file_name e) as [msg|s] eqn:He.
    + apply parse_entry_inl in He as [He _]. rewrite He.
      split; [done|]. intros [[[? ?] _] _]. done.
    + apply parse_entry_inr in He. rewrite He, IH, <- app_assoc. simpl.
      split; [intros [? ->]; eauto|intros [[_ ?] ->]; eauto].
Qed.

Lemma parse_entries_inl file_name entries acc error_msg :
  parse_entries file_name acc entries = inl error_msg →
  error_msg ≠ "" ∧ Exists (λ e, parse_task e = None) entries.
Proof.
  revert acc. induction entries as [|e entries IH]; intros acc; simpl; [done|].
  destruct (parse_entry file_name e) as [msg|s] eqn:He.
  - intros [= <-]. apply parse_entry_inl in He as [He Hne].
    split; [done|]. by apply Exists_cons_hd.
  - intros [Hne Hex]%IH. split; [done|]. by apply Exists_cons_tl.
Qed.

(** When the strict parser returns a task. *)
Lemma parse_xml_file_success file_path file_name f task :
  parse_xml_file file_path file_name f = ([task], "") ↔
    ∃ root n d,
      f = Parsed root ∧ tag root = "project_plan" ∧
      find "name" root = Some n ∧ find "description" root = Some d ∧
      Forall (λ e, is_Some (parse_task e)) (subtask_entries root) ∧
      task = mkTask (default "" (text n)) (default "" (text d))
               (parse_delegated root)
               (omap parse_task (subtask_entries root)).
Proof.
  destruct f as [| |e|root]; simpl; try naive_solver.
  destruct (decide (tag root = "project_plan")) as [Ht|Ht]; [|naive_solver].
  destruct (find "name" root) as [n|] eqn:Hn; simpl; [|naive_solver].
  destruct (find "description" root) as [d|] eqn:Hd; simpl; [|naive_solver].
  fold (subtask_entries root).
  destruct (parse_entries file_name [] (subtask_entries root))
    as [msg|subtasks] eqn:He.
  - apply parse_entries_inl in He as [Hne Hex]. split; [naive_solver|].
    intros (root' & n' & d' & [= <-] & _ & _ & _ & Hall & _).
    apply Exists_exists in Hex as (e & Hin & He).
    rewrite Forall_forall in Hall. destruct (Hall e Hin) as [? ?]. congruence.
  - apply parse_entries_inr in He as [Hall ->]. simpl. split.
    + intros [= <-]. eauto 10.
    + intros (root' & n' & d' & ? & _ & ? & ? & _ & ->). by simplify_eq.
Qed.

Lemma parse_xml_file_cases file_path file_name f :
  (∃ task, parse_xml_file file_path file_name f = ([task], "")) ∨
  (∃ error_msg, parse_xml_file file_path file_name f = ([], error_msg) ∧
                error_msg ≠ "").
Proof.
  destruct f as [| |e|root]; simpl; try (right; eexists; by split).
  destruct (decide (tag root = "project_plan")); [|right; eexists; by split].
  destruct (find "name" root); [|right; eexists; by split].
  destruct (find "description" root); [|right; eexists; by split].
  destruct (parse_entries _ _ _) as [msg|subtasks] eqn:He.
  - apply parse_entries_inl in He as [Hne _]. right. eauto.
  - left. eauto.
Qed.


(** The strict parser rejects the whole document as soon as one [task]
    entry lacks a [name] or a [delegatedTo] text: no task is returned. *)
Theorem parse_xml_file_strict file_path file_name root e :
  e ∈ subtask_entries root →
  parse_task e = None →
  ∃ error_msg,
    parse_xml_file file_path file_name (Parsed root) = ([], error_msg) ∧
    error_msg ≠ "".
Proof.
  intros Hin He.
  destruct (parse_xml_file_cases file_path file_name (Parsed root))
    as [[task Hok]|Herr]; [|done].
  apply parse_xml_file_success in Hok
    as (root' & n & d & [= <-] & _ & _ & _ & Hall & _).
  rewrite Forall_forall in Hall. destruct (Hall e Hin) as [? ?]. congruence.
Qed.

(** Where the strict parser accepts a document, the parser of the agent
    system returns the same task, except when the [name] or the
    [description] element has no text: the agent system's parser rejects
    such a document, and the strict one reads the missing text as the
    empty string. *)
Theorem parse_xml_file_agrees file_path file_name root task :
  parse_xml_file file_path file_name (Parsed root) = ([task], "") →
  (parse_root_as_task root = Some task ∧
   parse_project_plan (Document root) = [task]) ∨
  (parse_root_as_task root = None ∧
   parse_project_plan (Document root) = [] ∧
   (task_name task = "" ∨ task_description task = "")).
Proof.
  intros (root' & n & d & [= <-] & Htag & Hn & Hd & Hall & ->)%parse_xml_file_success.
  unfold parse_project_plan. rewrite decide_True by done.
  unfold parse_root_as_task, required_text. rewrite Hn, Hd. simpl.
  destruct (text n) as [nt|], (text d) as [dt|]; simpl.
  - left. by rewrite parse_subtasks_omap.
  - right. eauto.
  - right. eauto.
  - right. eauto.
Qed.

(** Conversely, a task the agent system's parser returns for a
    [project_plan] document whose entries are all complete is what the
    strict parser returns. *)
Theorem parse_root_as_task_strict file_path file_name root task :
  tag root = "project_plan" →
  parse_root_as_task root = Some task →
  Forall (λ e, is_Some (parse_task e)) (subtask_entries root) →
  parse_xml_file file_path file_name (Parsed root) = ([task], "").
Proof.
  intros Htag Hp Hall. apply parse_xml_file_success.
  unfold parse_root_as_task in Hp.
  destruct (required_text "name" root) as [nt|] eqn:Hn; [|done].
  destruct (required_text "description" root) as [dt|] eqn:Hd; [|done].
  apply required_text_Some in Hn as (n & Hn & Hnt).
  apply required_text_Some in Hd as (d & Hd & Hdt).
  exists root, n, d. split_and!; try done.
  injection Hp as <-. by rewrite Hnt, Hdt, parse_subtasks_omap.
Qed.

End strict_parser.

(** * Further properties of the schedule builder and the selector *)

Section collected_agents.
Context `{!Py.Lower}.

Lemma ordered_agents_elem_of loops task a :
  a ∈ ordered_agents (collect_agents loops task) ↔
    ∃ r, r ∈ scheduled_roles task ++ [fixer] ∧ agent_instances !! r = Some a.
Proof.
  rewrite collect_agents_ordered, list_elem_of_omap.
  by setoid_rewrite first_occurrences_elem_of.
Qed.

Lemma ordered_agents_NoDup loops task :
  NoDup (ordered_agents (collect_agents loops task)).
Proof.
  rewrite collect_agents_ordered.
  apply NoDup_omap_inj; [apply first_occurrences_NoDup|].
  intros ??? _ _. apply agent_instances_inj.
Qed.

Lemma agent_instances_values r a :
  agent_instances !! r = Some a → a ∈ [coder; project_manager; tester; debugger].
Proof.
  unfold agent_instances. intros Ha.
  repeat (apply lookup_insert_Some in Ha as [[_ <-]|[_ Ha]];
          [rewrite !elem_of_cons; tauto|]).
  apply lookup_singleton_Some in Ha as [_ <-]. rewrite !elem_of_cons; tauto.
Qed.

Lemma debugger_collected loops task :
  debugger ∈ ordered_agents (collect_agents loops task).
Proof.
  apply ordered_agents_elem_of. exists fixer. split; [|done].
  apply elem_of_app. right. apply list_elem_of_here.
Qed.

Lemma agent_order_nonempty loops task :
  agent_order (collect_agents loops task) ≠ [].
Proof.
  rewrite collect_agents_order. intros Hnil.
  apply app_eq_nil in Hnil as [Hroles [Hfix _]%app_eq_nil].
  case_decide as Hin; [|done]. rewrite Hroles in Hin. by apply elem_of_nil in Hin.
Qed.

Lemma user_proxy_not_collected loops task :
  user_proxy ∉ ordered_agents (collect_agents loops task).
Proof.
  intros (r & _ & Ha)%ordered_agents_elem_of.
  apply agent_instances_values in Ha.
  rewrite !elem_of_cons, elem_of_nil in Ha.
  destruct Ha as [Ha|[Ha|[Ha|[Ha|[]]]]]; discriminate Ha.
Qed.

(** [execute_agent_tasks] always hands between one and four agents to the
    group chat, the debugger among them, and never the user proxy. *)
Theorem ordered_agents_bounds loops task :
  let agents := ordered_agents (collect_agents loops task) in
  (1 ≤ length agents ≤ 4)%nat ∧ debugger ∈ agents ∧ user_proxy ∉ agents.
Proof.
  intros agents. split_and!.
  - pose proof (debugger_collected loops task) as Hin. fold agents in Hin.
    destruct agents; [by apply elem_of_nil in Hin|simpl; lia].
  - change 4 with (length [coder; project_manager; tester; debugger]).
    apply submseteq_length, NoDup_submseteq; [apply ordered_agents_NoDup|].
    intros a (r & _ & Ha)%ordered_agents_elem_of.
    by eapply agent_instances_values.
  - apply debugger_collected.
  - apply user_proxy_not_collected.
Qed.

(** The chat of a task is a single-agent chat (with the library's [auto]
    speaker selection instead of the closure, so that the agent order is
    not used) exactly when no subtask names the coder, the project manager
    or the tester; the only agent is then the debugger. *)
Theorem single_agent_chat_iff {Message : Type} loops task :
  let chat := execute_agent_tasks_with (Message := Message) loops task in
  (speaker_selection_method chat.2 = auto ↔
   Forall (λ r, agent_instances !! r = None ∨ r = fixer) (scheduled_roles task)) ∧
  (speaker_selection_method chat.2 = auto →
   chat.1 = [debugger] ∧ chat_agents chat.2 = [user_proxy; debugger]).
Proof.
  intros chat. subst chat.
  pose proof (debugger_collected loops task) as Hdbg.
  pose proof (ordered_agents_NoDup loops task) as Hnd.
  assert (∀ a, a ∈ ordered_agents (collect_agents loops task) ↔
               ∃ r, r ∈ scheduled_roles task ++ [fixer] ∧
                    agent_instances !! r = Some a) as Hin
    by (intros; apply ordered_agents_elem_of).
  unfold execute_agent_tasks_with, setup_group_chat. cbv zeta.
  destruct (ordered_agents (collect_agents loops task)) as [|a [|b l]]; simpl.
  - by apply elem_of_nil in Hdbg.
  - apply list_elem_of_singleton in Hdbg as <-. split; [|done].
    split; [intros _|done]. apply Forall_forall. intros r Hr.
    destruct (agent_instances !! r) as [a|] eqn:Ha; [|by left]. right.
    assert (a ∈ [debugger]) as ->%list_elem_of_singleton.
    { apply Hin. exists r. split; [|done]. apply elem_of_app. by left. }
    by apply agent_instances_Some in Ha.
  - split; [|intros Heq; discriminate Heq].
    split; [intros Heq; discriminate Heq|]. intros Hall. exfalso.
    assert (∀ c, c ∈ a :: b :: l → c = debugger) as Honly.
    { assert (agent_instances !! fixer = Some debugger) as Hfix by done.
      intros c (r & [Hr| ->%list_elem_of_singleton]%elem_of_app & Hc)%Hin.
      - rewrite Forall_forall in Hall.
        destruct (Hall r Hr) as [Hn| ->]; congruence.
      - congruence. }
    apply NoDup_cons in Hnd as [Hab _]. apply Hab.
    rewrite (Honly a), (Honly b); [apply list_elem_of_here|..].
    + apply list_elem_of_further, list_elem_of_here.
    + apply list_elem_of_here.
Qed.

End collected_agents.

Section selector_edges.
Context {Message : Type} `{!Py.Lower}.
Implicit Types (agents : list Agent) (messages : list Message).

(** The selector looks at the messages only through the quotient of their
    number by three: after the first message, every scheduled entry holds
    for three consecutive messages. *)
Theorem selector_three_message_turns agents order
    (messages1 messages2 : list Message) :
  messages1 ≠ [] → messages2 ≠ [] →
  length messages1 / 3 = length messages2 / 3 →
  custom_speaker_selection_func agents order messages1 =
  custom_speaker_selection_func agents order messages2.
Proof.
  intros H1 H2 Hq.
  destruct messages1 as [|m1 l1], messages2 as [|m2 l2]; try done.
  unfold custom_speaker_selection_func. by rewrite Hq.
Qed.

(** The selection made through an agent order repeats after three times
    its length in messages. *)
Theorem selector_periodic agents (order : list string) messages1 messages2 k :
  messages1 ≠ [] →
  length messages2 = length messages1 + k * (3 * length order) →
  custom_speaker_selection_func agents (Some order) messages2 =
  custom_speaker_selection_func agents (Some order) messages1.
Proof.
  intros H1 Hlen.
  destruct order as [|r order].
  { destruct messages1 as [|m1 l1]; [done|].
    destruct messages2 as [|m2 l2]; [simpl in Hlen; lia|].
    unfold custom_speaker_selection_func.
    replace (length (m2 :: l2)) with (length (m1 :: l1))
      by (simpl in *; lia). done. }
  assert (messages2 ≠ []) as H2.
  { intros ->. destruct messages1; [done|]. simpl in Hlen. lia. }
  destruct (selector_scheduled agents (r :: order) messages1)
    as (s1 & Hs1 & ->); [done..|].
  destruct (selector_scheduled agents (r :: order) messages2)
    as (s2 & Hs2 & ->); [done..|].
  assert (turn_index (length messages2) (length (r :: order)) =
          turn_index (length messages1) (length (r :: order))) as Hidx.
  { unfold turn_index. rewrite Hlen.
    replace (k * (3 * length (r :: order))) with ((k * length (r :: order)) * 3) by lia.
    rewrite Nat.div_add by lia. by rewrite Nat.Div0.mod_add. }
  rewrite Hidx in Hs2. congruence.
Qed.

(** Without agents the selector always raises: [IndexError] from
    [agents[0]] before the first message and on the search for the
    scheduled agent, [ZeroDivisionError] from the default rotation. *)
Theorem selector_no_agents order messages :
  custom_speaker_selection_func [] order messages =
    Py.Raise (match messages, order with
              | [], _ => Py.IndexError
              | _ :: _, Some (_ :: _) => Py.IndexError
              | _ :: _, _ => Py.ZeroDivisionError
              end).
Proof.
  destruct messages as [|m messages]; [done|].
  destruct order as [[|r order]|]; try done.
  destruct (selector_scheduled [] (r :: order) (m :: messages))
    as (s & _ & ->); done.
Qed.

End selector_edges.

Section selector_collected.
Context {Message : Type}.
Implicit Types (messages : list Message).

(** On the agents and the agent order that [execute_agent_tasks] builds,
    the selector never raises. The scheduled role gets its own agent when
    it is a subtask role (or the debugger) with an entry in the registry;
    every other turn, among them the tester and coder turns of the debug
    loop when no subtask names these roles, goes to the first agent. The
    user proxy is never selected. *)
Theorem selector_on_collected loops task messages :
  let st := collect_agents loops task in
  ∃ first selected,
    head (ordered_agents st) = Some first ∧
    custom_speaker_selection_func (ordered_agents st) (Some (agent_order st))
      messages = Py.Ok selected ∧
    selected ∈ ordered_agents st ∧
    selected ≠ user_proxy ∧
    (messages = [] → selected = first) ∧
    (∀ r, messages ≠ [] →
          agent_order st !! ((length messages / 3) mod length (agent_order st))
            = Some r →
          selected =
            if decide (r ∈ scheduled_roles task ++ [fixer])
            then default first (agent_instances !! r) else first).
Proof.
  intros st.
  destruct (ordered_agents_head loops task) as [first Hfirst]. fold st in Hfirst.
  assert (first ∈ ordered_agents st) as Hfirst_in.
  { destruct (ordered_agents st); simplify_eq/=. apply list_elem_of_here. }
  assert (∀ a, a ∈ ordered_agents st → a ≠ user_proxy) as Hproxy.
  { intros a Ha ->. by apply (user_proxy_not_collected loops task). }
  exists first.
  destruct messages as [|m messages].
  { exists first. split_and!.
    - done.
    - unfold custom_speaker_selection_func, Py.getitem.
      by destruct (ordered_agents st); simplify_eq/=.
    - done.
    - by apply Hproxy.
    - done.
    - by intros r Hne. }
  destruct (selector_scheduled (ordered_agents st) (agent_order st) (m :: messages))
    as (r & Hr & Hsel); [done|apply agent_order_nonempty|].
  assert (Py.lower r = r) as Hlow.
  { eapply (proj1 (Forall_forall _ _) (agent_order_lower_case loops task)).
    by eapply list_elem_of_lookup_2. }
  rewrite Hlow in Hsel. unfold turn_index in Hr.
  assert (∃ selected,
            next_matching (ordered_agents st) r = Py.Ok selected ∧
            selected ∈ ordered_agents st ∧
            selected = if decide (r ∈ scheduled_roles task ++ [fixer])
                       then default first (agent_instances !! r) else first)
    as (selected & Hnext & Hin & Hwhich).
  { destruct (decide (Exists (λ a, Py.lower (name a) = r) (ordered_agents st)))
      as [Hex|Hnex].
    - destruct (next_matching_found _ _ Hex) as (i & a & Ha & Hi & Hname & _).
      apply list_elem_of_lookup_2 in Hi.
      exists a. split_and!; [done..|].
      pose proof (ordered_agents_registered _ _ _ Hi) as Hreg.
      rewrite Hname in Hreg.
      apply ordered_agents_elem_of in Hi as (r' & Hr' & Hreg').
      rewrite (agent_instances_inj _ _ _ Hreg Hreg'), decide_True by done.
      by rewrite Hreg'.
    - apply not_Exists_Forall in Hnex; [|solve_decision].
      exists first. split_and!; [|done|].
      + apply next_matching_default; [done|].
        eapply Forall_impl; [exact Hnex|done].
      + case_decide as Hrole; [|done].
        destruct (agent_instances !! r) as [a|] eqn:Hreg; [|done]. exfalso.
        rewrite Forall_forall in Hnex. apply (Hnex a).
        * apply ordered_agents_elem_of. eauto.
        * simpl. by rewrite <- (agent_instances_Some r a Hreg). }
  exists selected. split_and!; try done; eauto; try congruence.
  intros r' _ Hr'. rewrite Hr in Hr'. by injection Hr' as <-.
Qed.

End selector_collected.

(** * The output-block extraction script *)

Section file_names.
Import OutputExtraction.
Local Open Scope Z_scope.

Lemma list_ascii_of_string_app s1 s2 :
  list_ascii_of_string (s1 +:+ s2) =
    (list_ascii_of_string s1 ++ list_ascii_of_string s2)%list.
Proof.
  induction s1 as [|a s1 IH]; [done|].
  change (String a s1 +:+ s2) with (String a (s1 +:+ s2)).
  simpl. by rewrite IH.
Qed.

Lemma list_ascii_of_string_inj s1 s2 :
  list_ascii_of_string s1 = list_ascii_of_string s2 → s1 = s2.
Proof.
  intros H. rewrite <- (string_of_list_ascii_of_string s1), H.
  apply string_of_list_ascii_of_string.
Qed.

(** The digits of a number hold no underscore. *)
Lemma pretty_N_go_no_underscore x s :
  "_"%char ∉ list_ascii_of_string s →
  "_"%char ∉ list_ascii_of_string (pretty_N_go x s).
Proof.
  revert s. induction (N.lt_wf_0 x) as [x _ IH]; intros s Hs.
  assert (x = 0 ∨ 0 < x)%N as [->|Hpos] by lia.
  - by rewrite pretty_N_go_0.
  - rewrite pretty_N_go_step by done. apply IH.
    { apply N.div_lt; lia. }
    simpl. intros [Hc|Hin]%elem_of_cons; [|done].
    revert Hc. unfold pretty_N_char. by repeat case_match.
Qed.

Lemma pretty_Z_no_underscore n :
  0 ≤ n → "_"%char ∉ list_ascii_of_string (pretty n).
Proof.
  intros Hn. destruct n as [|p|p]; [| |lia].
  - vm_compute. intros [Hc|Hin]%elem_of_cons; [done|by apply elem_of_nil in Hin].
  - unfold pretty, pretty_Z, pretty, pretty_positive, pretty, pretty_N.
    rewrite decide_False by done.
    apply pretty_N_go_no_underscore, not_elem_of_nil.
Qed.

(** A list is split in one way only at its last underscore. *)
Lemma split_at_last_underscore (c1 c2 p1 p2 : list ascii) :
  "_"%char ∉ p1 → "_"%char ∉ p2 →
  (c1 ++ "_"%char :: p1 = c2 ++ "_"%char :: p2)%list →
  c1 = c2 ∧ p1 = p2.
Proof.
  revert c2. induction c1 as [|a c1 IH]; intros [|b c2] H1 H2 Heq; simplify_eq/=.
  - done.
  - destruct H1. apply elem_of_app. right. apply list_elem_of_here.
  - destruct H2. apply elem_of_app. right. apply list_elem_of_here.
  - destruct (IH c2 H1 H2) as [-> ->]; done.
Qed.

Lemma file_name_inj c1 c2 n1 n2 ext :
  0 ≤ n1 → 0 ≤ n2 →
  c1 +:+ "_" +:+ pretty n1 +:+ ext = c2 +:+ "_" +:+ pretty n2 +:+ ext →
  c1 = c2 ∧ n1 = n2.
Proof.
  intros H1 H2 Heq. apply (f_equal list_ascii_of_string) in Heq.
  rewrite !list_ascii_of_string_app in Heq. simpl in Heq.
  rewrite !app_comm_cons, !(app_assoc _ _ (list_ascii_of_string ext)) in Heq.
  apply app_inv_tail in Heq.
  apply split_at_last_underscore in Heq as [Hc Hn];
    [|by apply pretty_Z_no_underscore..].
  split; [by apply list_ascii_of_string_inj|].
  by apply (inj pretty), list_ascii_of_string_inj.
Qed.

(** With a positive number of tests per category, the name of block [i]
    is either that of its category and its number within it, or the
    fallback name. *)
Lemma block_filename_positive categories tests_per_category ext i :
  0 < tests_per_category →
  ∃ c n,
    block_filename categories tests_per_category ext i
      = inr (c +:+ "_" +:+ pretty n +:+ ext) ∧
    ((0 ≤ Z.of_nat i `div` tests_per_category < Z.of_nat (length categories) ∧
      categories !! Z.to_nat (Z.of_nat i `div` tests_per_category) = Some c ∧
      n = Z.of_nat i `mod` tests_per_category + 1) ∨
     (Z.of_nat (length categories) ≤ Z.of_nat i `div` tests_per_category ∧
      c = "test"%string ∧ n = Z.of_nat i + 1)).
Proof.
  intros Hpos. unfold block_filename.
  rewrite decide_False by lia.
  assert (0 ≤ Z.of_nat i `div` tests_per_category) as Hdiv
    by (apply Z.div_pos; lia).
  set (q := Z.of_nat i `div` tests_per_category) in *. cbv zeta.
  destruct (decide (q < Z.of_nat (length categories))) as [Hlt|Hge].
  - unfold getitem. cbv zeta.
    destruct (decide (q < 0)) as [?|_]; [lia|].
    rewrite decide_True by lia.
    destruct (lookup_lt_is_Some_2 categories (Z.to_nat q)) as [c Hc]; [lia|].
    rewrite Hc. exists c, (Z.of_nat i `mod` tests_per_category + 1).
    split; [done|]. left. done.
  - exists "test"%string, (Z.of_nat i + 1). split; [done|]. right.
    split; [lia|done].
Qed.

(** With a positive number of tests per category and categories that are
    pairwise different, computing a file name never raises and two
    different blocks never get the same file name string. *)
Theorem block_filename_distinct categories tests_per_category ext i j :
  0 < tests_per_category →
  NoDup categories →
  i ≠ j →
  ∃ name_i name_j,
    block_filename categories tests_per_category ext i = inr name_i ∧
    block_filename categories tests_per_category ext j = inr name_j ∧
    name_i ≠ name_j.
Proof.
  intros Hpos Hnd Hij.
  destruct (block_filename_positive categories _ ext i Hpos)
    as (ci & ni & -> & Hi).
  destruct (block_filename_positive categories _ ext j Hpos)
    as (cj & nj & -> & Hj).
  eexists _, _. split_and!; [done..|]. intros Heq.
  pose proof (Z.mod_pos_bound (Z.of_nat i) tests_per_category Hpos) as Hmi.
  pose proof (Z.mod_pos_bound (Z.of_nat j) tests_per_category Hpos) as Hmj.
  pose proof (Z.div_mod (Z.of_nat i) tests_per_category) as Hdi.
  pose proof (Z.div_mod (Z.of_nat j) tests_per_category) as Hdj.
  apply file_name_inj in Heq as [-> ->];
    [|destruct Hi as [(_ & _ & ->)|(_ & _ & ->)]; lia
     |destruct Hj as [(_ & _ & ->)|(_ & _ & ->)]; lia].
  destruct Hi as [(Hri & Hci & Hni)|(Hri & Hci & Hni)],
           Hj as [(Hrj & Hcj & Hnj)|(Hrj & Hcj & Hnj)].
  - assert (Z.to_nat (Z.of_nat i `div` tests_per_category) =
            Z.to_nat (Z.of_nat j `div` tests_per_category)) as Hq
      by (eapply NoDup_lookup; eauto).
    apply Hij. nia.
  - subst cj. nia.
  - subst cj. nia.
  - lia.
Qed.

End file_names.

Section file_extension.
Import OutputExtraction.
Context `{!Py.Lower}.

Lemma extension_map_dot language extension :
  extension_map !! language = Some extension →
  ∃ rest, extension = String "."%char rest.
Proof.
  intros Hin%elem_of_list_to_map_2.
  repeat (apply elem_of_cons in Hin as [[= _ ->]|Hin]; [by eexists|]).
  by apply elem_of_nil in Hin.
Qed.

Lemma get_file_extension_nonempty language :
  language ≠ "" →
  get_file_extension_for_language language =
    inr (default ("." +:+ Py.lower language)
                 (extension_map !! Py.lower language)).
Proof. intros Hne. destruct language; [by destruct Hne|reflexivity]. Qed.

(** [get_file_extension_for_language] raises [ValueError] exactly for the
    empty language. For any other language the extension starts with a
    dot: it is the entry of the table for [language.lower()], or a dot
    followed by [language.lower()]. Two languages with the same [lower()]
    get the same extension. *)
Theorem file_extension_total language :
  (get_file_extension_for_language language = inl ValueError ↔ language = "") ∧
  (language ≠ "" →
   (∃ rest,
      get_file_extension_for_language language = inr (String "."%char rest)) ∧
   (∀ extension,
      get_file_extension_for_language language = inr extension ↔
      extension_map !! Py.lower language = Some extension ∨
      (extension_map !! Py.lower language = None ∧
       extension = "." +:+ Py.lower language)) ∧
   (∀ other,
      other ≠ "" → Py.lower other = Py.lower language →
      get_file_extension_for_language other =
      get_file_extension_for_language language)).
Proof.
  split.
  - split; [|by intros ->].
    destruct language as [|a l]; [done|].
    rewrite get_file_extension_nonempty by discriminate.
    intros Heq; discriminate Heq.
  - intros Hne. rewrite get_file_extension_nonempty by done. split_and!.
    + destruct (extension_map !! Py.lower language) as [e|] eqn:He.
      * apply extension_map_dot in He as [rest ->]. by eexists.
      * by eexists.
    + intros extension.
      destruct (extension_map !! Py.lower language) as [e|]; simpl; naive_solver.
    + intros other Hother Hlow.
      by rewrite get_file_extension_nonempty, Hlow by done.
Qed.

End file_extension.

(** * The file tools of the agents *)

Section agent_tools.
Import AgentTools.
Variable read_file : string → ReadOutcome.

(** An absolute file name is used as it is, so that the file lies outside
    the project directory; any other name is put under
    [src/calculator/]. *)
Theorem full_path_cases file_name :
  (String.prefix "/" file_name = true → full_path file_name = file_name) ∧
  (String.prefix "/" file_name = false →
   full_path file_name = "src/calculator/" +:+ file_name).
Proof.
  unfold full_path.
  split; intros H; unfold join at 1; rewrite H; reflexivity.
Qed.

(** Every message [read_file_content] returns for a failed read starts
    with "Error:". *)
Lemma read_file_content_error file_name :
  (∀ content, read_file (full_path file_name) ≠ Content content) →
  String.prefix "Error:" (read_file_content read_file file_name) = true.
Proof.
  intros Hfail. unfold read_file_content.
  destruct (read_file (full_path file_name)) as [c| | |e];
    [by destruct (Hfail c)|reflexivity..].
Qed.

(** [test_file] runs nothing and reports a read error when the read
    fails, and also when the file was read and its content begins with
    "Error:": the result is then the same for every executor. *)
Theorem test_file_not_executed execute_python_code file_name :
  (∀ content, read_file (full_path file_name) = Content content →
              String.prefix "Error:" content = true) →
  test_file read_file execute_python_code file_name =
    "Error reading file:" +:+ nl +:+ read_file_content read_file file_name.
Proof.
  intros Hcontent. unfold test_file.
  assert (String.prefix "Error:" (read_file_content read_file file_name) = true)
    as ->; [|done].
  destruct (read_file (full_path file_name)) as [c| | |e] eqn:Hread.
  - unfold read_file_content. rewrite Hread. by apply Hcontent.
  - apply read_file_content_error. intros c. by rewrite Hread.
  - apply read_file_content_error. intros c. by rewrite Hread.
  - apply read_file_content_error. intros c. by rewrite Hread.
Qed.

End agent_tools.

(** * Instances *)

Lemma full_path_cases_witness :
  AgentTools.full_path "/etc/passwd" = "/etc/passwd" ∧
  AgentTools.full_path "main.py" = "src/calculator/main.py".
Proof.
  split.
  - apply (proj1 (full_path_cases "/etc/passwd")). reflexivity.
  - apply (proj2 (full_path_cases "main.py")). reflexivity.
Defined.

Lemma test_file_not_executed_witness :
  AgentTools.test_file Examples.one_file (λ _, "never run") "notes.py" =
    "Error reading file:" +:+ AgentTools.nl
      +:+ "Error: this is the first line of a program".
Proof.
  apply (test_file_not_executed Examples.one_file (λ _, "never run") "notes.py").
  intros content [= <-]. reflexivity.
Defined.

Lemma parse_xml_file_strict_witness :
  ∃ error_msg,
    TaskFormat.parse_xml_file "plans/plan.xml" "plan.xml"
      (TaskFormat.Parsed plan_missing_role) = ([], error_msg) ∧
    error_msg ≠ "".
Proof.
  apply (parse_xml_file_strict "plans/plan.xml" "plan.xml" plan_missing_role
           (Elem "task" None [leaf "name" "test"])).
  - apply list_elem_of_further, list_elem_of_here.
  - reflexivity.
Defined.

Lemma parse_xml_file_agrees_witness :
  (parse_root_as_task Examples.plan_complete = Some Examples.task_complete ∧
   parse_project_plan (Document Examples.plan_complete) = [Examples.task_complete]) ∨
  (parse_root_as_task Examples.plan_complete = None ∧
   parse_project_plan (Document Examples.plan_complete) = [] ∧
   (task_name Examples.task_complete = "" ∨
    task_description Examples.task_complete = "")).
Proof.
  apply (parse_xml_file_agrees "plans/plan.xml" "plan.xml"). reflexivity.
Defined.

Lemma parse_root_as_task_strict_witness :
  TaskFormat.parse_xml_file "plans/plan.xml" "plan.xml"
    (TaskFormat.Parsed Examples.plan_complete) = ([Examples.task_complete], "").
Proof.
  apply parse_root_as_task_strict; [reflexivity|reflexivity|].
  repeat constructor; by eexists.
Defined.

Lemma single_agent_chat_iff_witness :
  (execute_agent_tasks_with (Message := unit) 3 Examples.task_review).1 = [debugger] ∧
  chat_agents (execute_agent_tasks_with (Message := unit) 3 Examples.task_review).2
    = [user_proxy; debugger].
Proof.
  apply (proj2 (single_agent_chat_iff (Message := unit) 3 Examples.task_review)).
  apply (proj1 (single_agent_chat_iff (Message := unit) 3 Examples.task_review)).
  apply Forall_cons. split; [left; reflexivity|].
  apply Forall_cons. split; [right; reflexivity|constructor].
Defined.

Lemma selector_three_message_turns_witness :
  custom_speaker_selection_func [coder; debugger] (Some ["debugger"; "coder"])
    [(); (); ()] =
  custom_speaker_selection_func [coder; debugger] (Some ["debugger"; "coder"])
    [(); (); (); (); ()].
Proof. apply selector_three_message_turns; [discriminate|discriminate|reflexivity]. Defined.

Lemma selector_periodic_witness :
  custom_speaker_selection_func [coder; debugger] (Some ["debugger"; "coder"])
    (replicate 14 ()) =
  custom_speaker_selection_func [coder; debugger] (Some ["debugger"; "coder"])
    [(); ()].
Proof. apply (selector_periodic _ _ _ _ 2); [discriminate|reflexivity]. Defined.

Lemma selector_on_collected_witness :
  ∃ first selected,
    head (ordered_agents (collect_agents 3 scenario)) = Some first ∧
    custom_speaker_selection_func (ordered_agents (collect_agents 3 scenario))
      (Some (agent_order (collect_agents 3 scenario))) (replicate 9 ())
      = Py.Ok selected ∧
    selected = first.
Proof.
  destruct (selector_on_collected (Message := unit) 3 scenario (replicate 9 ()))
    as (first & selected & Hhead & Hsel & _ & _ & _ & Hwhich).
  exists first, selected. split; [exact Hhead|]. split; [exact Hsel|].
  apply (Hwhich "tester"); [discriminate|reflexivity].
Defined.

Lemma block_filename_distinct_witness :
  ∃ name_i name_j,
    OutputExtraction.block_filename ["calculator"; "test"] 2 ".py" 3 = inr name_i ∧
    OutputExtraction.block_filename ["calculator"; "test"] 2 ".py" 4 = inr name_j ∧
    name_i ≠ name_j.
Proof.
  apply block_filename_distinct; [lia| |discriminate].
  apply NoDup_cons. split; [|apply NoDup_singleton].
  intros Hin%list_elem_of_singleton. discriminate Hin.
Defined.

Lemma file_extension_total_witness :
  OutputExtraction.get_file_extension_for_language "PYTHON" =
    OutputExtraction.get_file_extension_for_language "Python" ∧
  OutputExtraction.get_file_extension_for_language "Python" = inr ".py".
Proof.
  destruct (proj2 (file_extension_total "Python")) as (_ & Hext & Hsame);
    [discriminate|].
  split.
  - apply Hsame; [discriminate|reflexivity].
  - apply Hext. left. reflexivity.
Defined.
